(** * physical-xml.c: the physical.xml generator of virt-p2v

    A shallow embedding of [generate_physical_xml] and
    [map_interface_to_network] (src/physical-xml.c), together with the
    drive-name helper they rely on, and the properties of the written
    document.

    C strings are modelled by [string]: the characters before the
    terminating NUL.  Unsigned quantities are [N], signed ones [Z], array
    indices [nat]. *)

From Stdlib Require Import ZArith NArith List String Ascii Bool Arith Lia.
From Stdlib Require Import DecimalString.
Import ListNotations.

Open Scope string_scope.
Open Scope list_scope.

(** ** C string primitives used by the source *)

Definition strlen (s : string) : nat := String.length s.

(** [s[n]]; reading the terminator (or anything past it) gives NUL. *)
Definition char_at (s : string) (n : nat) : ascii :=
  match String.get n s with
  | Some c => c
  | None => Ascii.zero
  end.

(** [&s[n]]: the string that starts [n] characters into [s]. *)
Fixpoint strdrop (n : nat) (s : string) : string :=
  match n, s with
  | O, _ => s
  | S _, EmptyString => EmptyString
  | S k, String _ r => strdrop k r
  end.

(** [strchr s c] for [c] other than NUL: the tail of [s] that starts at the
    first [c], or [None] for the NULL pointer. *)
Fixpoint strchr (s : string) (c : ascii) : option string :=
  match s with
  | EmptyString => None
  | String a r => if Ascii.eqb a c then Some s else strchr r c
  end.

(** Modelled from the spec: the macro [STRPREFIX] comes from a header that is
    not part of src/; [STRPREFIX a b] tells whether [a] begins with [b], which
    is how the resolver's prefix test uses it. *)
Definition STRPREFIX (a b : string) : bool := String.prefix b a.

(** [s] with its last [s[len-1]] overwritten by NUL, i.e. cut at [n]. *)
Definition truncate_at (n : nat) (s : string) : string := String.substring 0 n s.

(** printf's [%d], [%u] and [%PRIu64] conversions. *)
Definition format_d (z : Z) : string := NilZero.string_of_int (Z.to_int z).
Definition format_u (n : N) : string := NilZero.string_of_uint (N.to_uint n).

(** ** Data model *)

(** Modelled from the spec: [struct config], [struct data_conn] and the
    [basis] enumeration are declared in p2v.h, which is not part of src/; the
    fields below are the ones the generator reads.  A [char *] that may be
    NULL is an [option]; a NULL-terminated [char **] is a list. *)
Inductive rtc_basis : Type :=
| BASIS_UNKNOWN
| BASIS_UTC
| BASIS_LOCALTIME.

Record cpu_config : Type := mk_cpu_config {
  vendor : option string;
  model : option string;
  sockets : N;
  cores : N;
  threads : N;
  acpi : bool;
  apic : bool;
  pae : bool
}.

Record rtc_config : Type := mk_rtc_config {
  basis : rtc_basis;
  offset : Z
}.

Record config : Type := mk_config {
  guestname : string;
  memory : N;
  vcpus : Z;
  cpu : cpu_config;
  rtc : rtc_config;
  disks : list string;
  removable : option (list string);
  interfaces : option (list string);
  network_map : option (list string)
}.

Record data_conn : Type := mk_data_conn {
  nbd_remote_port : Z
}.

(** [data_conns[i]].  The array is at least as long as [disks]; the model
    reads port 0 where C would read past the end. *)
Definition data_conn_at (data_conns : list data_conn) (i : nat) : data_conn :=
  nth i data_conns (mk_data_conn 0).

(** ** Drive names *)

Definition letter (d : Z) : ascii := ascii_of_nat (97 + Z.to_nat d).

(** Modelled from the spec: the loop of [guestfs_int_drive_name], a function
    defined outside src/.  Following section 4.2: repeatedly take [i mod 26]
    as a letter, then set [i] to [i/26 - 1], and stop when [i] is negative.
    The letters come out last letter first. *)
Fixpoint drive_letters (fuel : nat) (i : Z) : list ascii :=
  match fuel with
  | O => []
  | S fuel' =>
      if (i <? 0)%Z then []
      else letter (i mod 26) :: drive_letters fuel' (i / 26 - 1)
  end.

(** [fuel] rounds are enough for the loop started at [i]: each round
    strictly decreases a non-negative [i]. *)
Definition enough (fuel : nat) (i : Z) : Prop :=
  (i < 0)%Z \/ Z.to_nat i < fuel.

(** Modelled from the spec: [guestfs_int_drive_name] is defined outside src/
    (physical-xml.c only calls it).  Following section 4.2 it runs the loop
    above to its end and reverses the letters; [S (Z.to_nat i)] rounds are
    enough, and more rounds give the same name (lemmas [enough_default] and
    [drive_letters_fuel]). *)
Definition guestfs_int_drive_name (i : Z) : string :=
  string_of_list_ascii (rev (drive_letters (S (Z.to_nat i)) i)).

(** The sequence a, b, ..., z, aa, ab, ..., az, ba, ..., zz, aaa, ... given
    by its first term and a successor: the last letter advances, and a z
    turns into an a and carries to the left; a carry out of the first letter
    makes the name one letter longer. *)
Definition next_letter (c : ascii) : ascii := ascii_of_nat (S (nat_of_ascii c)).

Fixpoint advance (s : string) : string * bool :=
  match s with
  | EmptyString => (EmptyString, true)
  | String c r =>
      let (r', carry) := advance r in
      if carry then
        if Ascii.eqb c "z" then (String "a" r', true)
        else (String (next_letter c) r', false)
      else (String c r', false)
  end.

Definition next_name (s : string) : string :=
  let (s', carry) := advance s in
  if carry then String "a" s' else s'.

Fixpoint drive_sequence (n : nat) : string :=
  match n with
  | O => "a"
  | S k => next_name (drive_sequence k)
  end.

(** Orders on names: [lex_lt] is the lexicographic order of the character
    codes (the order of [strcmp], and of [String.ltb]: lemma
    [lex_ltb_is_ltb]); [shortlex_lt] puts shorter names first and is
    lexicographic among names of one length. *)
Fixpoint lex_ltb (s t : string) : bool :=
  match s, t with
  | _, EmptyString => false
  | EmptyString, String _ _ => true
  | String a s', String b t' =>
      (nat_of_ascii a <? nat_of_ascii b)%nat
      || (Ascii.eqb a b && lex_ltb s' t')
  end.

Definition lex_lt (s t : string) : Prop := lex_ltb s t = true.

Definition shortlex_ltb (s t : string) : bool :=
  (String.length s <? String.length t)%nat
  || ((String.length s =? String.length t)%nat && lex_ltb s t).

Definition shortlex_lt (s t : string) : Prop := shortlex_ltb s t = true.

(** ** Network resolver (physical-xml.c, map_interface_to_network) *)

Fixpoint map_interface_loop (entries : list string) (interface : string) : string :=
  match entries with
  | [] => "default"
  | e :: rest =>
      match strchr e ":" with
      | None => e
      | Some _ =>
          let len := strlen interface in
          if STRPREFIX e interface && Ascii.eqb (char_at e len) ":"
          then strdrop (len + 1) e
          else map_interface_loop rest interface
      end
  end.

Definition map_interface_to_network (cfg : config) (interface : string) : string :=
  match network_map cfg with
  | None => "default"
  | Some entries => map_interface_loop entries interface
  end.

(** The resolver as section 4.3 words it: split an entry at its first colon
    and compare the part before it with the interface name. *)
Fixpoint split_first_colon (e : string) : option (string * string) :=
  match e with
  | EmptyString => None
  | String c r =>
      if Ascii.eqb c ":" then Some (EmptyString, r)
      else match split_first_colon r with
           | None => None
           | Some (p, s) => Some (String c p, s)
           end
  end.

Fixpoint resolver_scan (entries : list string) (iface : string) : string :=
  match entries with
  | [] => "default"
  | e :: rest =>
      match split_first_colon e with
      | None => e
      | Some (p, s) => if String.eqb p iface then s else resolver_scan rest iface
      end
  end.

Definition resolver_spec (m : option (list string)) (iface : string) : string :=
  match m with
  | None => "default"
  | Some entries => resolver_scan entries iface
  end.

(** ** The written document *)

(** Modelled from the spec: the writer macros ([start_element] ...
    [end_element], [attribute], [string], [single_element], [empty_element],
    [comment] and their [_format] variants) come from
    libxml2-writer-macros.h, which is not part of src/.  Following section
    4.1, a [start_element (name) { ... } end_element ()] block denotes one
    element whose attributes and content are what the block writes, in
    order; the document is the list of its top-level nodes. *)
#[warning="-register-all"] Inductive xml : Type :=
| Element (name : string) (attrs : list (string * string)) (body : list xml)
| Text (s : string)
| Comment (s : string).

Definition start_element (name : string) (attrs : list (string * string))
    (body : list xml) : xml :=
  Element name attrs body.

Definition attribute (key value : string) : string * string := (key, value).
Definition attribute_format_d (key : string) (z : Z) : string * string :=
  (key, format_d z).
Definition attribute_format_u (key : string) (n : N) : string * string :=
  (key, format_u n).

(** [string_] is the macro [string], renamed away from the type. *)
Definition string_ (s : string) : xml := Text s.
Definition string_format_u (n : N) : xml := Text (format_u n).

Definition single_element (name s : string) : xml :=
  start_element name [] [string_ s].
Definition single_element_format_d (name : string) (z : Z) : xml :=
  start_element name [] [Text (format_d z)].
Definition empty_element (name : string) : xml := start_element name [] [].
Definition comment (s : string) : xml := Comment s.

(** C truth values of a pointer and of an unsigned integer. *)
Definition is_set {A : Type} (p : option A) : bool :=
  match p with
  | Some _ => true
  | None => false
  end.

Definition nonzero (n : N) : bool := negb (n =? 0)%N.

Definition newline : ascii := "010"%char.
Definition nl : string := String newline EmptyString.

(** [target_dev] as computed at the top of the disk loop; 63 is
    [sizeof (target_dev) - 1]. *)
Definition target_dev (i : nat) (disk : string) : string :=
  let target_sd := ("sd" ++ guestfs_int_drive_name (Z.of_nat i))%string in
  if Ascii.eqb (char_at disk 0) "/" then target_sd
  else if (strlen disk <=? 63)%nat then disk
  else target_sd.

Definition disk_element (data_conns : list data_conn) (i : nat)
    (disk : string) : xml :=
  start_element "disk"
    [attribute "type" "network"; attribute "device" "disk"]
    [start_element "driver"
       [attribute "name" "qemu"; attribute "type" "raw"] [];
     start_element "source" [attribute "protocol" "nbd"]
       [start_element "host"
          [attribute "name" "localhost";
           attribute_format_d "port"
             (nbd_remote_port (data_conn_at data_conns i))] []];
     start_element "target" [attribute "dev" (target_dev i disk)] []].

(** [for (i = 0; config->disks[i] != NULL; ++i)], entered at index [i]. *)
Fixpoint disks_loop (data_conns : list data_conn) (i : nat)
    (ds : list string) : list xml :=
  match ds with
  | [] => []
  | d :: rest => disk_element data_conns i d :: disks_loop data_conns (S i) rest
  end.

Definition removable_element (r : string) : xml :=
  start_element "disk"
    [attribute "type" "network"; attribute "device" "cdrom"]
    [start_element "driver"
       [attribute "name" "qemu"; attribute "type" "raw"] [];
     start_element "target" [attribute "dev" r] []].

(** What is written between [start_element ("cpu")] and its
    [end_element ()], after the [match] attribute. *)
Definition cpu_content (c : cpu_config) : list xml :=
  (match vendor c with
   | Some v => [single_element "vendor" v]
   | None => []
   end)
  ++ (match model c with
      | Some m =>
          [start_element "model" [attribute "fallback" "allow"] [string_ m]]
      | None => []
      end)
  ++ (if nonzero (sockets c) || nonzero (cores c) || nonzero (threads c)
      then
        [start_element "topology"
           ((if nonzero (sockets c)
             then [attribute_format_u "sockets" (sockets c)] else [])
            ++ (if nonzero (cores c)
                then [attribute_format_u "cores" (cores c)] else [])
            ++ (if nonzero (threads c)
                then [attribute_format_u "threads" (threads c)] else []))
           []]
      else []).

Definition cpu_elements (c : cpu_config) : list xml :=
  if is_set (vendor c) || is_set (model c)
     || nonzero (sockets c) || nonzero (cores c) || nonzero (threads c)
  then [start_element "cpu" [attribute "match" "minimum"] (cpu_content c)]
  else [].

Definition clock_elements (r : rtc_config) : list xml :=
  match basis r with
  | BASIS_UNKNOWN => []
  | BASIS_UTC =>
      [start_element "clock"
         (if (offset r =? 0)%Z then [attribute "offset" "utc"]
          else [attribute "offset" "variable";
                attribute "basis" "utc";
                attribute_format_d "adjustment" (offset r)])
         []]
  | BASIS_LOCALTIME =>
      [start_element "clock" [attribute "offset" "localtime"] []]
  end.

Definition features_element (c : cpu_config) : xml :=
  start_element "features" []
    ((if acpi c then [empty_element "acpi"] else [])
     ++ (if apic c then [empty_element "apic"] else [])
     ++ (if pae c then [empty_element "pae"] else [])).

Definition notice : string :=
  (" NOTE!" ++ nl
  ++ nl
  ++ "  This libvirt XML is generated by the virt-p2v front end, in" ++ nl
  ++ "  order to communicate with the backend virt-v2v process running" ++ nl
  ++ "  on the conversion server.  It is a minimal description of the" ++ nl
  ++ "  physical machine.  If the target of the conversion is libvirt," ++ nl
  ++ "  then virt-v2v will generate the real target libvirt XML, which" ++ nl
  ++ "  has only a little to do with the XML in this file." ++ nl
  ++ nl
  ++ "  TL;DR: Don't try to load this XML into libvirt. ")%string.

(** The body of [if (g_file_get_contents (...))]: [mac[len-1]] is set to
    NUL when [len > 0] and that character is a newline. *)
Definition strip_newline (mac : string) : string :=
  let len := strlen mac in
  if (0 <? len)%nat && Ascii.eqb (char_at mac (len - 1)) newline
  then truncate_at (len - 1) mac
  else mac.

Section Generator.

(** What the generator takes from its surroundings: the program name
    ([getprogname ()]), the build constants [PACKAGE_VERSION_FULL] and
    [host_cpu], and the host's files as seen by [g_file_get_contents]
    ([None] when the call fails, otherwise the contents as a C string). *)
Variable progname : string.
Variable PACKAGE_VERSION_FULL : string.
Variable host_cpu : string.
Variable g_file_get_contents : string -> option string.

Definition mac_filename (iface : string) : string :=
  ("/sys/class/net/" ++ iface ++ "/address")%string.

(** The value of [mac] when the interface element is written: NULL
    ([None]) when the file could not be read; otherwise its contents
    after the newline test. *)
Definition read_mac (iface : string) : option string :=
  match g_file_get_contents (mac_filename iface) with
  | Some mac => Some (strip_newline mac)
  | None => None
  end.

Definition interface_element (cfg : config) (iface : string) : xml :=
  let target_network := map_interface_to_network cfg iface in
  let mac := read_mac iface in
  start_element "interface" [attribute "type" "network"]
    ([start_element "source" [attribute "network" target_network] [];
      start_element "target" [attribute "dev" iface] []]
     ++ (match mac with
         | Some m => [start_element "mac" [attribute "address" m] []]
         | None => []
         end)).

Definition devices_element (cfg : config) (data_conns : list data_conn) : xml :=
  start_element "devices" []
    (disks_loop data_conns 0 (disks cfg)
     ++ (match removable cfg with
         | Some rs => map removable_element rs
         | None => []
         end)
     ++ (match interfaces cfg with
         | Some ifs => map (interface_element cfg) ifs
         | None => []
         end)).

Definition generate_physical_xml (cfg : config)
    (data_conns : list data_conn) : list xml :=
  let memkb := (memory cfg / 1024)%N in
  [comment (" " ++ progname ++ " " ++ PACKAGE_VERSION_FULL ++ " ")%string;
   comment notice;
   start_element "domain" [attribute "type" "physical"]
     ([single_element "name" (guestname cfg);
       start_element "memory" [attribute "unit" "KiB"]
         [string_format_u memkb];
       start_element "currentMemory" [attribute "unit" "KiB"]
         [string_format_u memkb];
       single_element_format_d "vcpu" (vcpus cfg)]
      ++ cpu_elements (cpu cfg)
      ++ clock_elements (rtc cfg)
      ++ [start_element "os" []
            [start_element "type" [attribute "arch" host_cpu]
               [string_ "hvm"]];
          features_element (cpu cfg);
          devices_element cfg data_conns])].

End Generator.

(** ** Reading the document back *)

Definition has_name (n : string) (x : xml) : bool :=
  match x with
  | Element m _ _ => String.eqb m n
  | _ => false
  end.

Definition children (x : xml) : list xml :=
  match x with
  | Element _ _ body => body
  | _ => []
  end.

Definition attributes (x : xml) : list (string * string) :=
  match x with
  | Element _ attrs _ => attrs
  | _ => []
  end.

(** The value of the first attribute called [key], if any. *)
Fixpoint lookup_attribute (key : string) (attrs : list (string * string))
    : option string :=
  match attrs with
  | [] => None
  | (k, v) :: rest => if String.eqb k key then Some v else lookup_attribute key rest
  end.

Definition attribute_of (key : string) (x : xml) : option string :=
  lookup_attribute key (attributes x).

(** The elements called [n] among [nodes]. *)
Definition elements (n : string) (nodes : list xml) : list xml :=
  filter (has_name n) nodes.

(** The content of the elements reached from [nodes] along [path]. *)
Fixpoint inside (path : list string) (nodes : list xml) : list xml :=
  match path with
  | [] => nodes
  | n :: rest => inside rest (flat_map children (elements n nodes))
  end.

Definition has_attribute (key value : string) (x : xml) : bool :=
  match attribute_of key x with
  | Some v => String.eqb v value
  | None => false
  end.

(** The [<disk device=...>] elements of the document, in document order. *)
Definition disk_elements (device : string) (doc : list xml) : list xml :=
  filter (has_attribute "device" device)
    (elements "disk" (inside ["domain"; "devices"] doc)).

Definition interface_elements (doc : list xml) : list xml :=
  elements "interface" (inside ["domain"; "devices"] doc).

(** The topology attributes the CPU rule asks for: the nonzero ones among
    sockets, cores and threads, in that order. *)
Definition nonzero_topology (c : cpu_config) : list (string * string) :=
  map (fun kn => (fst kn, format_u (snd kn)))
    (filter (fun kn => negb (N.eqb (snd kn) 0))
       [("sockets", sockets c); ("cores", cores c); ("threads", threads c)]).

Definition interface_list (cfg : config) : list string :=
  match interfaces cfg with
  | Some ifs => ifs
  | None => []
  end.

(** The configurations of section 8 used as concrete inputs below. *)
Definition cpu_unset : cpu_config :=
  mk_cpu_config None None 0 0 0 false false false.

Definition minimum_config : config :=
  mk_config "h1" 1048576 1 cpu_unset (mk_rtc_config BASIS_UNKNOWN 0)
    ["/dev/sda"] None None None.

Definition with_disks (cfg : config) (ds : list string) : config :=
  mk_config (guestname cfg) (memory cfg) (vcpus cfg) (cpu cfg) (rtc cfg)
    ds (removable cfg) (interfaces cfg) (network_map cfg).

Definition with_interfaces (cfg : config) (ifs : list string) : config :=
  mk_config (guestname cfg) (memory cfg) (vcpus cfg) (cpu cfg) (rtc cfg)
    (disks cfg) (removable cfg) (Some ifs) (network_map cfg).

(** A host on which only eth0 has a readable address file. *)
Definition eth0_only (contents : string) (filename : string) : option string :=
  if String.eqb filename "/sys/class/net/eth0/address"
  then Some contents
  else None.

(** A host that agrees with [eth0_only contents] on eth0's address file and
    has some other contents in every other file. *)
Definition eth0_and_more (contents : string) (filename : string) : option string :=
  match eth0_only contents filename with
  | Some c => Some c
  | None => Some "unrelated"
  end.

Definition with_removable (cfg : config) (rs : list string) : config :=
  mk_config (guestname cfg) (memory cfg) (vcpus cfg) (cpu cfg) (rtc cfg)
    (disks cfg) (Some rs) (interfaces cfg) (network_map cfg).

Definition with_network_map (cfg : config) (m : list string) : config :=
  mk_config (guestname cfg) (memory cfg) (vcpus cfg) (cpu cfg) (rtc cfg)
    (disks cfg) (removable cfg) (interfaces cfg) (Some m).

(** The names of the elements among [nodes], in order. *)
Fixpoint element_names (nodes : list xml) : list string :=
  match nodes with
  | [] => []
  | Element n _ _ :: rest => n :: element_names rest
  | _ :: rest => element_names rest
  end.

(** The entries of the network map; a NULL map has none. *)
Definition network_map_entries (cfg : config) : list string :=
  match network_map cfg with
  | Some entries => entries
  | None => []
  end.

Definition removable_list (cfg : config) : list string :=
  match removable cfg with
  | Some rs => rs
  | None => []
  end.

(** The loop of the resolver goes past an entry that has a colon and does
    not begin with the interface name and a colon. *)
Definition passed_over (iface e : string) : Prop :=
  strchr e ":" <> None /\ String.prefix (iface ++ ":") e = false.

(** One more than the largest [size_t], the type of the disk index. *)
Definition SIZE_LIMIT : Z := (2 ^ 64)%Z.

(** Strings made of the letters a to z only. *)
Definition is_lower (c : ascii) : bool :=
  (97 <=? nat_of_ascii c)%nat && (nat_of_ascii c <=? 122)%nat.

Fixpoint all_lower (s : string) : bool :=
  match s with
  | EmptyString => true
  | String c r => is_lower c && all_lower r
  end.

(** * Properties *)

(** ** Strings *)

Lemma append_empty_r (s : string) : (s ++ EmptyString)%string = s.
Proof.
  induction s as [|c s IH]; simpl; [reflexivity | now rewrite IH].
Qed.

Lemma append_assoc (s t u : string) :
  ((s ++ t) ++ u)%string = (s ++ (t ++ u))%string.
Proof.
  induction s as [|c s IH]; simpl; [reflexivity | now rewrite IH].
Qed.

Lemma length_append (s t : string) :
  String.length (s ++ t) = String.length s + String.length t.
Proof.
  induction s as [|c s IH]; simpl; [reflexivity | now rewrite IH].
Qed.

Lemma string_of_list_ascii_app (l1 l2 : list ascii) :
  string_of_list_ascii (l1 ++ l2)
  = (string_of_list_ascii l1 ++ string_of_list_ascii l2)%string.
Proof.
  induction l1 as [|c l1 IH]; simpl; [reflexivity | now rewrite IH].
Qed.

(** ** Network resolver *)

Lemma strchr_none_iff_split (e : string) :
  strchr e ":" = None <-> split_first_colon e = None.
Proof.
  induction e as [|c r IH]; simpl.
  - tauto.
  - destruct (Ascii.eqb c ":").
    + split; discriminate.
    + rewrite IH. destruct (split_first_colon r) as [[p s]|].
      * split; discriminate.
      * tauto.
Qed.

(** On an interface name without a colon, the prefix test of the source
    followed by the test of [e[len]] is the comparison of the part before
    the first colon, and [&e[len+1]] is the part after it. *)
Lemma entry_match (e : string) :
  forall iface p s,
    split_first_colon e = Some (p, s) ->
    strchr iface ":" = None ->
    STRPREFIX e iface && Ascii.eqb (char_at e (strlen iface)) ":"
    = String.eqb p iface
    /\ (String.eqb p iface = true -> strdrop (strlen iface + 1) e = s).
Proof.
  unfold STRPREFIX, char_at, strlen.
  induction e as [|c r IH]; intros iface p s Hsplit Hiface; simpl in Hsplit.
  - discriminate.
  - destruct (Ascii.eqb c ":") eqn:Hc.
    + injection Hsplit as <- <-.
      destruct iface as [|a i']; simpl.
      * rewrite Hc. split; [reflexivity | intros _; reflexivity].
      * simpl in Hiface. destruct (Ascii.eqb a ":") eqn:Ha; [discriminate|].
        destruct (ascii_dec a c) as [->|Hne].
        -- congruence.
        -- split; [reflexivity | discriminate].
    + destruct (split_first_colon r) as [[p' s']|] eqn:Hr; [|discriminate].
      injection Hsplit as <- <-.
      destruct iface as [|a i']; simpl.
      * rewrite Hc. split; [reflexivity | discriminate].
      * simpl in Hiface. destruct (Ascii.eqb a ":") eqn:Ha; [discriminate|].
        destruct (ascii_dec a c) as [->|Hne].
        -- rewrite Ascii.eqb_refl. simpl.
           exact (IH i' p' s' eq_refl Hiface).
        -- assert (Hca : Ascii.eqb c a = false).
           { apply Ascii.eqb_neq. congruence. }
           rewrite Hca. split; [reflexivity | discriminate].
Qed.

Lemma map_interface_loop_spec (entries : list string) (iface : string) :
  strchr iface ":" = None ->
  map_interface_loop entries iface = resolver_scan entries iface.
Proof.
  intros Hiface.
  induction entries as [|e rest IH]; simpl; [reflexivity|].
  destruct (split_first_colon e) as [[p s]|] eqn:Hsplit.
  - destruct (strchr e ":") eqn:Hchr.
    + destruct (entry_match e iface p s Hsplit Hiface) as [Htest Hdrop].
      rewrite Htest.
      destruct (String.eqb p iface); [now apply Hdrop | exact IH].
    + apply strchr_none_iff_split in Hchr. congruence.
  - apply strchr_none_iff_split in Hsplit. now rewrite Hsplit.
Qed.

(** Without the restriction on the interface name, an entry is taken exactly
    when it is the interface name, a colon, and the returned network. *)
Lemma prefix_test_iff (e iface : string) :
  STRPREFIX e iface && Ascii.eqb (char_at e (strlen iface)) ":" = true
  <-> e = (iface ++ ":" ++ strdrop (strlen iface + 1) e)%string.
Proof.
  unfold STRPREFIX, char_at, strlen.
  revert e; induction iface as [|a i' IH]; intros e; simpl.
  - destruct e as [|c r]; simpl.
    + split; discriminate.
    + rewrite Ascii.eqb_eq. split; [now intros -> | now intros [= ->]].
  - destruct e as [|c r]; simpl.
    + split; discriminate.
    + destruct (ascii_dec a c) as [->|Hne].
      * rewrite IH. split; intros H; [f_equal; exact H | now injection H].
      * split; [discriminate | intros H; injection H; congruence].
Qed.

(** C1, as written, fails on an interface name that contains a colon: the
    source compares the whole interface name with the beginning of the entry,
    so the entry a:b:net is taken for the interface a:b and gives net, where
    splitting the entry at its first colon gives the prefix a, which is not
    the interface name, and so the default. *)
Lemma resolver_colon_interface_counterexample :
  let cfg := with_network_map minimum_config ["a:b:net"] in
  map_interface_to_network cfg "a:b" = "net"
  /\ resolver_spec (network_map cfg) "a:b" = "default"
  /\ map_interface_to_network cfg "a:b" <> resolver_spec (network_map cfg) "a:b".
Proof.
  split; [reflexivity | split; [reflexivity | discriminate]].
Qed.

(** C1 (amended): for an interface name that contains no colon,
    [map_interface_to_network] returns the default when the map is absent or
    empty; otherwise the first entry, in list order, that either has no colon
    (returned whole) or whose part before its first colon is the interface
    name (the part after that colon is returned); and the default when no
    entry matches.  In particular a first entry that starts with a colon is
    taken only for the empty interface name, and what follows that colon is
    returned. *)
Theorem map_interface_to_network_spec (cfg : config) (iface : string) :
  strchr iface ":" = None ->
  map_interface_to_network cfg iface = resolver_spec (network_map cfg) iface
  /\ (forall name rest,
         network_map cfg = Some (String ":" name :: rest) ->
         map_interface_to_network cfg iface
         = if String.eqb iface EmptyString then name
           else resolver_spec (Some rest) iface).
Proof.
  intros Hiface.
  assert (Hspec : map_interface_to_network cfg iface
                  = resolver_spec (network_map cfg) iface).
  { unfold map_interface_to_network, resolver_spec.
    destruct (network_map cfg) as [entries|]; [|reflexivity].
    now apply map_interface_loop_spec. }
  split; [exact Hspec|].
  intros name rest Hmap. rewrite Hspec, Hmap.
  destruct iface; reflexivity.
Qed.

Lemma map_interface_to_network_spec_witness :
  let cfg := with_network_map minimum_config ["eth0:prod"; "backup"] in
  strchr "eth0" ":" = None
  /\ map_interface_to_network cfg "eth0" = resolver_spec (network_map cfg) "eth0"
  /\ resolver_spec (network_map cfg) "eth0" = "prod".
Proof.
  split; [reflexivity|].
  split; [apply map_interface_to_network_spec|]; reflexivity.
Defined.

(** ** Drive names *)

(** A property checked on 0 .. n-1 holds of every index below n. *)
Lemma forall_below (P : Z -> bool) (n : nat) :
  forallb P (map Z.of_nat (seq 0 n)) = true ->
  forall d, (0 <= d < Z.of_nat n)%Z -> P d = true.
Proof.
  intros Hall d Hd. rewrite forallb_forall in Hall. apply Hall.
  apply in_map_iff. exists (Z.to_nat d). split; [lia|].
  apply in_seq. lia.
Qed.

Lemma letter_next (d : Z) :
  (0 <= d < 25)%Z ->
  letter (d + 1) = next_letter (letter d) /\ Ascii.eqb (letter d) "z" = false.
Proof.
  intros Hd.
  assert (Hall : forallb
    (fun d => Ascii.eqb (letter (d + 1)) (next_letter (letter d))
              && negb (Ascii.eqb (letter d) "z"))
    (map Z.of_nat (seq 0 25)) = true) by (vm_compute; reflexivity).
  pose proof (forall_below _ 25 Hall d ltac:(lia)) as H. cbv beta in H.
  apply andb_true_iff in H. destruct H as [H1 H2].
  apply Ascii.eqb_eq in H1. apply negb_true_iff in H2. now split.
Qed.

Lemma letter_code (d : Z) :
  (0 <= d < 26)%Z -> nat_of_ascii (letter d) = 97 + Z.to_nat d.
Proof.
  intros Hd. unfold letter. apply nat_ascii_embedding. lia.
Qed.

(** Rounds of the loop beyond the ones it needs change nothing. *)

Lemma enough_step (fuel : nat) (i : Z) :
  (0 <= i)%Z -> enough (S fuel) i -> enough fuel (i / 26 - 1).
Proof.
  intros Hi [Hneg | Hfuel]; [lia|].
  unfold enough.
  assert (i / 26 <= i)%Z by (apply Z.div_le_upper_bound; lia).
  destruct (Z_lt_dec (i / 26 - 1) 0); [now left | right; lia].
Qed.

Lemma drive_letters_fuel (f1 : nat) :
  forall f2 i, enough f1 i -> enough f2 i ->
               drive_letters f1 i = drive_letters f2 i.
Proof.
  induction f1 as [|f1 IH]; intros f2 i H1 H2.
  - destruct H1 as [Hneg | Hfuel]; [|lia].
    destruct f2 as [|f2]; simpl; [reflexivity|].
    apply Z.ltb_lt in Hneg. now rewrite Hneg.
  - destruct f2 as [|f2]; simpl.
    + destruct H2 as [Hneg | Hfuel]; [|lia].
      apply Z.ltb_lt in Hneg. now rewrite Hneg.
    + destruct (i <? 0)%Z eqn:Hi; [reflexivity|].
      apply Z.ltb_ge in Hi.
      f_equal. apply IH; now apply enough_step.
Qed.

Lemma enough_default (i : Z) : enough (S (Z.to_nat i)) i.
Proof. right. lia. Qed.

(** The name of a negative index is empty, and the name of [i >= 0] is the
    name of [i/26 - 1] followed by the letter of [i mod 26]. *)
Lemma drive_name_negative (i : Z) :
  (i < 0)%Z -> guestfs_int_drive_name i = EmptyString.
Proof.
  intros Hi. unfold guestfs_int_drive_name. simpl.
  apply Z.ltb_lt in Hi. now rewrite Hi.
Qed.

Lemma drive_name_step (i : Z) :
  (0 <= i)%Z ->
  guestfs_int_drive_name i
  = (guestfs_int_drive_name (i / 26 - 1)
     ++ String (letter (i mod 26)) EmptyString)%string.
Proof.
  intros Hi. unfold guestfs_int_drive_name at 1.
  cbn [drive_letters].
  apply Z.ltb_ge in Hi. rewrite Hi. apply Z.ltb_ge in Hi.
  cbn [rev]. rewrite string_of_list_ascii_app. cbn [string_of_list_ascii].
  f_equal. unfold guestfs_int_drive_name. do 2 f_equal.
  apply drive_letters_fuel.
  - apply enough_step; [exact Hi | apply enough_default].
  - apply enough_default.
Qed.

Lemma drive_name_length_pos (i : Z) :
  (0 <= i)%Z -> 0 < String.length (guestfs_int_drive_name i).
Proof.
  intros Hi. rewrite (drive_name_step i Hi), length_append. simpl. lia.
Qed.

(** *** The successor of a name *)

Lemma advance_snoc (s : string) (c : ascii) :
  advance (s ++ String c EmptyString)
  = if Ascii.eqb c "z"
    then (let (s', carry) := advance s in ((s' ++ "a")%string, carry))
    else ((s ++ String (next_letter c) EmptyString)%string, false).
Proof.
  induction s as [|a s IH].
  - simpl. destruct (Ascii.eqb c "z"); reflexivity.
  - cbn [append advance]. rewrite IH.
    destruct (Ascii.eqb c "z").
    + destruct (advance s) as [s' carry].
      destruct carry; [destruct (Ascii.eqb a "z")|]; reflexivity.
    + reflexivity.
Qed.

Lemma next_name_snoc (s : string) (c : ascii) :
  next_name (s ++ String c EmptyString)
  = if Ascii.eqb c "z"
    then (next_name s ++ "a")%string
    else (s ++ String (next_letter c) EmptyString)%string.
Proof.
  unfold next_name. rewrite advance_snoc.
  destruct (Ascii.eqb c "z"); [|reflexivity].
  destruct (advance s) as [s' carry]. destruct carry; reflexivity.
Qed.

Lemma div_mod_succ_low (i : Z) :
  (0 <= i)%Z -> (i mod 26 < 25)%Z ->
  ((i + 1) / 26 = i / 26 /\ (i + 1) mod 26 = i mod 26 + 1)%Z.
Proof.
  intros Hi Hr.
  pose proof (Z.div_mod i 26 ltac:(lia)) as Hdm.
  pose proof (Z.mod_pos_bound i 26 ltac:(lia)) as Hb.
  symmetry in Hdm.
  split; symmetry.
  - apply Z.div_unique with (r := (i mod 26 + 1)%Z); lia.
  - apply Z.mod_unique with (q := (i / 26)%Z); lia.
Qed.

Lemma div_mod_succ_high (i : Z) :
  (0 <= i)%Z -> (i mod 26 = 25)%Z ->
  ((i + 1) / 26 = i / 26 + 1 /\ (i + 1) mod 26 = 0)%Z.
Proof.
  intros Hi Hr.
  pose proof (Z.div_mod i 26 ltac:(lia)) as Hdm.
  split; symmetry.
  - apply Z.div_unique with (r := 0%Z); lia.
  - apply Z.mod_unique with (q := (i / 26 + 1)%Z); lia.
Qed.

(** Each name is the successor of the one before it. *)
Lemma drive_name_succ (n : nat) :
  forall i, (-1 <= i < Z.of_nat n - 1)%Z ->
            guestfs_int_drive_name (i + 1) = next_name (guestfs_int_drive_name i).
Proof.
  induction n as [|n IH]; intros i Hi; [lia|].
  destruct (Z.eq_dec i (-1)) as [->|Hne]; [vm_compute; reflexivity|].
  assert (H0 : (0 <= i)%Z) by lia.
  pose proof (Z.mod_pos_bound i 26 ltac:(lia)) as Hb.
  assert (Hq : (i / 26 <= i)%Z) by (apply Z.div_le_upper_bound; lia).
  assert (Hq0 : (0 <= i / 26)%Z) by (apply Z.div_pos; lia).
  rewrite (drive_name_step (i + 1)) by lia.
  rewrite (drive_name_step i H0), next_name_snoc.
  destruct (Z.eq_dec (i mod 26) 25) as [Hr|Hr].
  - destruct (div_mod_succ_high i H0 Hr) as [-> ->].
    rewrite Hr. cbn [letter Z.to_nat]. change (Ascii.eqb (letter 25) "z") with true.
    cbv iota. f_equal.
    replace (i / 26 + 1 - 1)%Z with (i / 26 - 1 + 1)%Z by lia.
    apply IH. lia.
  - destruct (div_mod_succ_low i H0 ltac:(lia)) as [-> ->].
    destruct (letter_next (i mod 26) ltac:(lia)) as [-> ->].
    reflexivity.
Qed.

Lemma drive_name_sequence (n : nat) :
  guestfs_int_drive_name (Z.of_nat n) = drive_sequence n.
Proof.
  induction n as [|n IH]; [reflexivity|].
  cbn [drive_sequence]. rewrite <- IH.
  replace (Z.of_nat (S n)) with (Z.of_nat n + 1)%Z by lia.
  apply (drive_name_succ (S (S n))). lia.
Qed.

(** C2: for every index [i >= 0] the drive namer (the loop on [i mod 26] and
    [i/26 - 1], reversed) gives the [i]-th term of the sequence a, b, ..., z,
    aa, ab, ..., az, ba, ..., zz, aaa, ...; in particular 0, 25, 26, 27, 701
    and 702 give a, z, aa, ab, zz and aaa. *)
Theorem drive_name_is_sequence_term (i : Z) :
  (0 <= i)%Z ->
  guestfs_int_drive_name i = drive_sequence (Z.to_nat i)
  /\ guestfs_int_drive_name 0 = "a"
  /\ guestfs_int_drive_name 25 = "z"
  /\ guestfs_int_drive_name 26 = "aa"
  /\ guestfs_int_drive_name 27 = "ab"
  /\ guestfs_int_drive_name 701 = "zz"
  /\ guestfs_int_drive_name 702 = "aaa".
Proof.
  intros Hi. split.
  - rewrite <- drive_name_sequence. f_equal. lia.
  - repeat split; vm_compute; reflexivity.
Qed.

Lemma drive_name_is_sequence_term_witness :
  (0 <= 28)%Z
  /\ guestfs_int_drive_name 28 = drive_sequence (Z.to_nat 28).
Proof.
  split; [lia | apply (drive_name_is_sequence_term 28); lia].
Defined.

(** *** Order of the names *)

Lemma lex_ltb_irrefl (s : string) : lex_ltb s s = false.
Proof.
  induction s as [|c s IH]; simpl; [reflexivity|].
  rewrite Nat.ltb_irrefl, Ascii.eqb_refl. exact IH.
Qed.

(** [lex_ltb] is the strict order [String.ltb] of the standard library. *)
Lemma lex_ltb_is_ltb (s : string) :
  forall t, lex_ltb s t = String.ltb s t.
Proof.
  unfold String.ltb.
  induction s as [|a s IH]; intros [|b t]; simpl; try reflexivity.
  unfold Ascii.compare, nat_of_ascii.
  destruct (N.compare_spec (N_of_ascii a) (N_of_ascii b)) as [Heq|Hlt|Hgt].
  - rewrite Heq, Nat.ltb_irrefl.
    assert (a = b) as ->.
    { rewrite <- (ascii_N_embedding a), <- (ascii_N_embedding b).
      now rewrite Heq. }
    rewrite Ascii.eqb_refl. apply IH.
  - replace (N.to_nat (N_of_ascii a) <? N.to_nat (N_of_ascii b))%nat with true
      by (symmetry; apply Nat.ltb_lt; lia).
    reflexivity.
  - replace (N.to_nat (N_of_ascii a) <? N.to_nat (N_of_ascii b))%nat with false
      by (symmetry; apply Nat.ltb_ge; lia).
    replace (Ascii.eqb a b) with false; [reflexivity|].
    symmetry. apply Ascii.eqb_neq. intros ->. lia.
Qed.

Lemma shortlex_ltb_irrefl (s : string) : shortlex_ltb s s = false.
Proof.
  unfold shortlex_ltb.
  now rewrite Nat.ltb_irrefl, Nat.eqb_refl, lex_ltb_irrefl.
Qed.

Lemma lex_ltb_common_prefix (p s t : string) :
  lex_ltb (p ++ s) (p ++ t) = lex_ltb s t.
Proof.
  induction p as [|c p IH]; simpl; [reflexivity|].
  now rewrite Nat.ltb_irrefl, Ascii.eqb_refl.
Qed.

Lemma lex_ltb_extend (s : string) :
  forall t u v,
    String.length s = String.length t ->
    lex_ltb s t = true -> lex_ltb (s ++ u) (t ++ v) = true.
Proof.
  induction s as [|a s IH]; intros [|b t] u v Hlen Hlt; simpl in *;
    try discriminate.
  apply orb_true_iff in Hlt. apply orb_true_iff.
  destruct Hlt as [Hlt | Hlt]; [now left | right].
  apply andb_true_iff in Hlt. destruct Hlt as [Hab Hst].
  rewrite Hab. simpl. apply IH; [lia | exact Hst].
Qed.

Lemma shortlex_snoc (s t : string) (a b : ascii) :
  shortlex_lt s t ->
  shortlex_lt (s ++ String a EmptyString) (t ++ String b EmptyString).
Proof.
  unfold shortlex_lt, shortlex_ltb. rewrite !length_append. simpl.
  intros H. apply orb_true_iff in H. apply orb_true_iff.
  destruct H as [H | H].
  - left. apply Nat.ltb_lt in H. apply Nat.ltb_lt. lia.
  - right. apply andb_true_iff in H. destruct H as [Hlen Hlt].
    apply Nat.eqb_eq in Hlen. apply andb_true_iff. split.
    + apply Nat.eqb_eq. lia.
    + now apply lex_ltb_extend.
Qed.

Lemma shortlex_last (s : string) (a b : ascii) :
  nat_of_ascii a < nat_of_ascii b ->
  shortlex_lt (s ++ String a EmptyString) (s ++ String b EmptyString).
Proof.
  intros Hab. unfold shortlex_lt, shortlex_ltb.
  rewrite !length_append, lex_ltb_common_prefix. simpl.
  rewrite Nat.eqb_refl. apply Nat.ltb_lt in Hab. rewrite Hab.
  now rewrite orb_true_r.
Qed.

Lemma shortlex_empty (s : string) :
  0 < String.length s -> shortlex_lt EmptyString s.
Proof.
  intros Hs. unfold shortlex_lt, shortlex_ltb. simpl.
  apply Nat.ltb_lt in Hs. now rewrite Hs.
Qed.

(** Names come in shortlex order; the index -1 stands for the empty name
    that the recursion bottoms out in. *)
Lemma drive_name_shortlex (n : nat) :
  forall i j, (-1 <= i < j)%Z -> (j < Z.of_nat n)%Z ->
              shortlex_lt (guestfs_int_drive_name i) (guestfs_int_drive_name j).
Proof.
  induction n as [|n IH]; intros i j Hij Hj; [lia|].
  assert (Hj0 : (0 <= j)%Z) by lia.
  destruct (Z.eq_dec i (-1)) as [->|Hne].
  - rewrite drive_name_negative by lia.
    apply shortlex_empty. now apply drive_name_length_pos.
  - assert (Hi0 : (0 <= i)%Z) by lia.
    rewrite (drive_name_step i Hi0), (drive_name_step j Hj0).
    pose proof (Z.div_mod i 26 ltac:(lia)) as Hi.
    pose proof (Z.div_mod j 26 ltac:(lia)) as Hjd.
    pose proof (Z.mod_pos_bound i 26 ltac:(lia)) as Hbi.
    pose proof (Z.mod_pos_bound j 26 ltac:(lia)) as Hbj.
    assert (Hq : (i / 26 <= j / 26)%Z) by (apply Z.div_le_mono; lia).
    assert (Hqi : (0 <= i / 26)%Z) by (apply Z.div_pos; lia).
    destruct (Z.eq_dec (i / 26) (j / 26)) as [Heq|Hlt].
    + rewrite Heq. apply shortlex_last.
      rewrite !letter_code by lia. lia.
    + apply shortlex_snoc. apply IH; lia.
Qed.

Lemma drive_name_increasing (i j : Z) :
  (0 <= i < j)%Z ->
  shortlex_lt (guestfs_int_drive_name i) (guestfs_int_drive_name j).
Proof.
  intros Hij. apply (drive_name_shortlex (S (Z.to_nat j))); lia.
Qed.

(** C8, as written, fails in its second half: names are not in lexicographic
    order of their indices.  Index 1 is before index 26, its name b is after
    the name aa of index 26 in lexicographic order. *)
Lemma drive_name_lexicographic_counterexample :
  (1 < 26)%Z
  /\ guestfs_int_drive_name 1 = "b"
  /\ guestfs_int_drive_name 26 = "aa"
  /\ ~ lex_lt (guestfs_int_drive_name 1) (guestfs_int_drive_name 26)
  /\ lex_lt (guestfs_int_drive_name 26) (guestfs_int_drive_name 1)
  /\ String.ltb (guestfs_int_drive_name 1) (guestfs_int_drive_name 26) = false.
Proof.
  split; [lia|]. unfold lex_lt.
  repeat split; try (vm_compute; reflexivity).
  vm_compute. discriminate.
Qed.

(** C8 (amended): for all indices [i >= 0] and [j >= 0], different indices
    have different names; and for [i < j] the name of [i] comes before the
    name of [j] in the order that puts shorter names first and is
    lexicographic among names of one length, so that lexicographic order
    matches input order among names of the same length. *)
Theorem drive_name_injective_shortlex (i j : Z) :
  (0 <= i)%Z -> (0 <= j)%Z ->
  (i <> j -> guestfs_int_drive_name i <> guestfs_int_drive_name j)
  /\ ((i < j)%Z ->
      shortlex_lt (guestfs_int_drive_name i) (guestfs_int_drive_name j)
      /\ String.length (guestfs_int_drive_name i)
         <= String.length (guestfs_int_drive_name j)
      /\ (String.length (guestfs_int_drive_name i)
          = String.length (guestfs_int_drive_name j) ->
          lex_lt (guestfs_int_drive_name i) (guestfs_int_drive_name j))).
Proof.
  intros Hi Hj. split.
  - intros Hne Heq.
    assert (H : shortlex_lt (guestfs_int_drive_name i) (guestfs_int_drive_name j)
                \/ shortlex_lt (guestfs_int_drive_name j) (guestfs_int_drive_name i)).
    { destruct (Z_lt_dec i j);
        [left | right]; apply drive_name_increasing; lia. }
    unfold shortlex_lt in H. rewrite Heq, shortlex_ltb_irrefl in H.
    destruct H; discriminate.
  - intros Hlt.
    pose proof (drive_name_increasing i j ltac:(lia)) as H.
    split; [exact H|].
    unfold shortlex_lt, shortlex_ltb in H. apply orb_true_iff in H.
    destruct H as [H | H].
    + apply Nat.ltb_lt in H. split; [lia | intros Heq; lia].
    + apply andb_true_iff in H. destruct H as [Hlen Hlex].
      apply Nat.eqb_eq in Hlen. split; [lia | intros _; exact Hlex].
Qed.

Lemma drive_name_injective_shortlex_witness :
  (0 <= 25)%Z /\ (0 <= 26)%Z /\ (25 <> 26)%Z /\ (25 < 26)%Z
  /\ guestfs_int_drive_name 25 <> guestfs_int_drive_name 26
  /\ shortlex_lt (guestfs_int_drive_name 25) (guestfs_int_drive_name 26).
Proof.
  destruct (drive_name_injective_shortlex 25 26) as [Hinj Hord]; [lia | lia |].
  split; [lia|]. split; [lia|]. split; [lia|]. split; [lia|].
  split; [apply Hinj; lia | apply Hord; lia].
Defined.

(** ** The document *)

Lemma filter_map_all {A B : Type} (p : B -> bool) (f : A -> B) (l : list A) :
  (forall x, p (f x) = true) -> filter p (map f l) = map f l.
Proof.
  intros Hp. induction l as [|x l IH]; simpl; [reflexivity|].
  now rewrite Hp, IH.
Qed.

Lemma filter_map_none {A B : Type} (p : B -> bool) (f : A -> B) (l : list A) :
  (forall x, p (f x) = false) -> filter p (map f l) = [].
Proof.
  intros Hp. induction l as [|x l IH]; simpl; [reflexivity|].
  now rewrite Hp, IH.
Qed.

Lemma elements_app (n : string) (l1 l2 : list xml) :
  elements n (l1 ++ l2) = elements n l1 ++ elements n l2.
Proof. apply filter_app. Qed.

Lemma elements_cpu_other (n : string) (c : cpu_config) :
  String.eqb "cpu" n = false -> elements n (cpu_elements c) = [].
Proof.
  intros Hn. unfold cpu_elements.
  destruct (is_set (vendor c) || is_set (model c) || nonzero (sockets c)
            || nonzero (cores c) || nonzero (threads c));
    [|reflexivity].
  unfold elements, start_element. cbn [filter has_name]. now rewrite Hn.
Qed.

Lemma elements_clock_other (n : string) (r : rtc_config) :
  String.eqb "clock" n = false -> elements n (clock_elements r) = [].
Proof.
  intros Hn. unfold clock_elements.
  destruct (basis r); [reflexivity| |];
    unfold elements, start_element; cbn [filter has_name]; now rewrite Hn.
Qed.

Lemma disks_loop_nth (data_conns : list data_conn) (ds : list string) :
  forall k i d,
    nth_error ds i = Some d ->
    nth_error (disks_loop data_conns k ds) i
    = Some (disk_element data_conns (k + i) d).
Proof.
  induction ds as [|d0 ds IH]; intros k i d Hnth.
  - destruct i; discriminate.
  - destruct i as [|i]; simpl in *.
    + injection Hnth as ->. now rewrite Nat.add_0_r.
    + rewrite (IH (S k) i d Hnth). do 2 f_equal. lia.
Qed.

Lemma disks_loop_filter (p : xml -> bool) (data_conns : list data_conn)
    (ds : list string) :
  (forall i d, p (disk_element data_conns i d) = true) ->
  forall k, filter p (disks_loop data_conns k ds) = disks_loop data_conns k ds.
Proof.
  intros Hp. induction ds as [|d ds IH]; intros k; simpl; [reflexivity|].
  now rewrite Hp, IH.
Qed.

Lemma starts_with_slash (d : string) :
  Ascii.eqb (char_at d 0) "/" = String.prefix "/" d.
Proof.
  destruct d as [|c r]; [reflexivity|].
  unfold char_at. cbn [String.get String.prefix].
  destruct (ascii_dec "/" c) as [<-|Hne].
  - now destruct r.
  - apply Ascii.eqb_neq. congruence.
Qed.

(** *** Stripping the newline of the MAC file *)

Lemma string_snoc_view (s : string) :
  s = EmptyString
  \/ exists r c, s = (r ++ String c EmptyString)%string.
Proof.
  induction s as [|a s IH]; [now left | right].
  destruct IH as [-> | (r & c & ->)].
  - now exists EmptyString, a.
  - now exists (String a r), c.
Qed.

Lemma string_snoc_inj (s t : string) (a b : ascii) :
  (s ++ String a EmptyString)%string = (t ++ String b EmptyString)%string ->
  s = t /\ a = b.
Proof.
  revert t; induction s as [|x s IH]; intros [|y t] H; simpl in H.
  - now injection H.
  - injection H as _ H. destruct t; discriminate.
  - injection H as _ H. destruct s; discriminate.
  - injection H as -> H. destruct (IH t H) as [-> ->]. now split.
Qed.

Lemma get_snoc (s : string) (c : ascii) :
  String.get (String.length s) (s ++ String c EmptyString) = Some c.
Proof. induction s as [|a s IH]; simpl; [reflexivity | exact IH]. Qed.

Lemma substring_snoc (s : string) (c : ascii) :
  String.substring 0 (String.length s) (s ++ String c EmptyString) = s.
Proof. induction s as [|a s IH]; simpl; [reflexivity | now rewrite IH]. Qed.

Lemma strip_newline_spec (contents : string) :
  (forall s, contents = (s ++ nl)%string -> strip_newline contents = s)
  /\ ((forall s, contents <> (s ++ nl)%string) ->
      strip_newline contents = contents).
Proof.
  unfold strip_newline, strlen, char_at, truncate_at, nl.
  destruct (string_snoc_view contents) as [-> | (r & c & ->)].
  - split; [|reflexivity].
    intros s Hs. destruct s; discriminate.
  - rewrite length_append. cbn [String.length].
    replace (String.length r + 1 - 1) with (String.length r) by lia.
    replace (0 <? String.length r + 1)%nat with true
      by (symmetry; apply Nat.ltb_lt; lia).
    rewrite get_snoc, substring_snoc. cbn [andb].
    destruct (Ascii.eqb_spec c newline) as [->|Hc].
    + split.
      * intros s Hs. now apply string_snoc_inj in Hs.
      * intros Hno. now destruct (Hno r).
    + split; [|reflexivity].
      intros s Hs. apply string_snoc_inj in Hs. destruct Hs as [_ Hs].
      contradiction.
Qed.

Section Properties.

Variable progname : string.
Variable PACKAGE_VERSION_FULL : string.
Variable host_cpu : string.
Variable g_file_get_contents : string -> option string.

Implicit Types (cfg : config) (data_conns : list data_conn).

Lemma domain_content cfg data_conns :
  inside ["domain"] (generate_physical_xml progname PACKAGE_VERSION_FULL host_cpu
       g_file_get_contents cfg data_conns)
  = [single_element "name" (guestname cfg);
     start_element "memory" [attribute "unit" "KiB"]
       [string_format_u (memory cfg / 1024)];
     start_element "currentMemory" [attribute "unit" "KiB"]
       [string_format_u (memory cfg / 1024)];
     single_element_format_d "vcpu" (vcpus cfg)]
    ++ cpu_elements (cpu cfg)
    ++ clock_elements (rtc cfg)
    ++ [start_element "os" []
          [start_element "type" [attribute "arch" host_cpu] [string_ "hvm"]];
        features_element (cpu cfg);
        devices_element g_file_get_contents cfg data_conns].
Proof.
  unfold generate_physical_xml, inside, elements, comment, start_element.
  cbn [filter has_name String.eqb Ascii.eqb Bool.eqb flat_map children].
  now rewrite app_nil_r.
Qed.

Lemma devices_content cfg data_conns :
  inside ["domain"; "devices"] (generate_physical_xml progname PACKAGE_VERSION_FULL host_cpu
       g_file_get_contents cfg data_conns)
  = disks_loop data_conns 0 (disks cfg)
    ++ (match removable cfg with
        | Some rs => map removable_element rs
        | None => []
        end)
    ++ (match interfaces cfg with
        | Some ifs => map (interface_element g_file_get_contents cfg) ifs
        | None => []
        end).
Proof.
  change (inside ["domain"; "devices"] (generate_physical_xml progname PACKAGE_VERSION_FULL host_cpu
       g_file_get_contents cfg data_conns))
    with (flat_map children
            (elements "devices" (inside ["domain"] (generate_physical_xml progname PACKAGE_VERSION_FULL host_cpu
       g_file_get_contents cfg data_conns)))).
  rewrite domain_content, !elements_app.
  rewrite elements_cpu_other, elements_clock_other by reflexivity.
  unfold devices_element, features_element, single_element,
    single_element_format_d, start_element, elements.
  cbn [filter has_name String.eqb Ascii.eqb Bool.eqb app flat_map children].
  now rewrite app_nil_r.
Qed.

Lemma disk_elements_content cfg data_conns :
  disk_elements "disk" (generate_physical_xml progname PACKAGE_VERSION_FULL host_cpu
       g_file_get_contents cfg data_conns)
  = disks_loop data_conns 0 (disks cfg).
Proof.
  unfold disk_elements. rewrite devices_content, !elements_app, !filter_app.
  unfold elements.
  rewrite !disks_loop_filter by reflexivity.
  destruct (removable cfg) as [rs|], (interfaces cfg) as [ifs|];
    cbn [filter];
    rewrite ?(filter_map_none (has_name "disk") (interface_element g_file_get_contents cfg))
      by reflexivity;
    rewrite ?(filter_map_all (has_name "disk") removable_element)
      by reflexivity;
    rewrite ?(filter_map_none (has_attribute "device" "disk") removable_element)
      by reflexivity;
    cbn [filter]; now rewrite ?app_nil_r.
Qed.

Lemma interface_elements_content cfg data_conns :
  interface_elements (generate_physical_xml progname PACKAGE_VERSION_FULL host_cpu
       g_file_get_contents cfg data_conns)
  = match interfaces cfg with
    | Some ifs => map (interface_element g_file_get_contents cfg) ifs
    | None => []
    end.
Proof.
  unfold interface_elements. rewrite devices_content, !elements_app.
  unfold elements.
  assert (Hdisks : forall k, filter (has_name "interface")
                               (disks_loop data_conns k (disks cfg)) = []).
  { induction (disks cfg) as [|d ds IH]; intros k; simpl;
      [reflexivity | apply IH]. }
  rewrite Hdisks.
  destruct (removable cfg) as [rs|], (interfaces cfg) as [ifs|];
    cbn [filter app];
    rewrite ?(filter_map_none (has_name "interface") removable_element)
      by reflexivity;
    rewrite ?(filter_map_all (has_name "interface") (interface_element g_file_get_contents cfg))
      by reflexivity;
    reflexivity.
Qed.

(** C6: the memory and currentMemory elements carry the same value, the
    number of whole KiB in the configuration's byte count, that is
    [floor (memory / 1024)]. *)
Theorem memory_reporting cfg data_conns :
  exists memkb : N,
    (1024 * memkb <= memory cfg < 1024 * (memkb + 1))%N
    /\ elements "memory"
         (inside ["domain"]
            (generate_physical_xml progname PACKAGE_VERSION_FULL host_cpu
               g_file_get_contents cfg data_conns))
       = [Element "memory" [("unit", "KiB")] [Text (format_u memkb)]]
    /\ elements "currentMemory"
         (inside ["domain"]
            (generate_physical_xml progname PACKAGE_VERSION_FULL host_cpu
               g_file_get_contents cfg data_conns))
       = [Element "currentMemory" [("unit", "KiB")] [Text (format_u memkb)]].
Proof.
  exists (memory cfg / 1024)%N. split.
  - pose proof (N.Div0.mul_div_le (memory cfg) 1024) as Hle.
    pose proof (N.mul_succ_div_gt (memory cfg) 1024 ltac:(lia)) as Hgt.
    lia.
  - rewrite domain_content, !elements_app.
    rewrite !elements_cpu_other, !elements_clock_other by reflexivity.
    split; reflexivity.
Qed.

(** C4: the clock element is present exactly when the basis is not
    UNKNOWN; it is [offset=utc] for UTC with offset 0,
    [offset=variable basis=utc adjustment=N] for UTC with offset N other
    than 0, and [offset=localtime] for LOCALTIME. *)
Theorem clock_rule cfg data_conns :
  let clock :=
    elements "clock"
      (inside ["domain"]
         (generate_physical_xml progname PACKAGE_VERSION_FULL host_cpu
            g_file_get_contents cfg data_conns)) in
  (clock <> [] <-> basis (rtc cfg) <> BASIS_UNKNOWN)
  /\ clock
     = match basis (rtc cfg) with
       | BASIS_UNKNOWN => []
       | BASIS_UTC =>
           if (offset (rtc cfg) =? 0)%Z
           then [Element "clock" [("offset", "utc")] []]
           else [Element "clock"
                   [("offset", "variable"); ("basis", "utc");
                    ("adjustment", format_d (offset (rtc cfg)))] []]
       | BASIS_LOCALTIME => [Element "clock" [("offset", "localtime")] []]
       end.
Proof.
  cbv zeta. rewrite domain_content, !elements_app.
  rewrite elements_cpu_other by reflexivity.
  unfold clock_elements.
  destruct (basis (rtc cfg)); cbn.
  - split; [split; congruence | reflexivity].
  - destruct (offset (rtc cfg) =? 0)%Z;
      (split; [split; intros; discriminate | reflexivity]).
  - split; [split; intros; discriminate | reflexivity].
Qed.

(** C5: the cpu element is written exactly when one of vendor, model,
    sockets, cores, threads is set; it then holds a vendor element exactly
    when the vendor is present, a model element with [fallback=allow]
    exactly when the model is present, and a topology element exactly when
    a topology field is nonzero, with the nonzero attributes among
    sockets, cores and threads and no others. *)
Theorem cpu_rule cfg data_conns :
  let c := cpu cfg in
  let found :=
    elements "cpu"
      (inside ["domain"]
         (generate_physical_xml progname PACKAGE_VERSION_FULL host_cpu
            g_file_get_contents cfg data_conns)) in
  exists body,
    (found = []
     <-> vendor c = None /\ model c = None
         /\ sockets c = 0%N /\ cores c = 0%N /\ threads c = 0%N)
    /\ (found = [] \/ found = [Element "cpu" [("match", "minimum")] body])
    /\ elements "vendor" body
       = match vendor c with
         | Some v => [Element "vendor" [] [Text v]]
         | None => []
         end
    /\ elements "model" body
       = match model c with
         | Some m => [Element "model" [("fallback", "allow")] [Text m]]
         | None => []
         end
    /\ elements "topology" body
       = match nonzero_topology c with
         | [] => []
         | attrs => [Element "topology" attrs []]
         end.
Proof.
  cbv zeta. rewrite domain_content, !elements_app.
  rewrite elements_clock_other by reflexivity.
  exists (cpu_content (cpu cfg)).
  unfold cpu_elements, cpu_content, nonzero_topology, nonzero.
  destruct (cpu cfg) as [v m s c t a1 a2 a3];
    cbn [vendor model sockets cores threads filter snd].
  split; [|split; [|split; [|split]]].
  - destruct v, m, (N.eqb_spec s 0), (N.eqb_spec c 0), (N.eqb_spec t 0);
      cbn;
      (split;
       [ intros H; try discriminate H; repeat split; assumption || reflexivity
       | intros (H1 & H2 & H3 & H4 & H5);
         try discriminate; try contradiction; reflexivity ]).
  - destruct v, m, (N.eqb s 0), (N.eqb c 0), (N.eqb t 0); cbn;
      try (left; reflexivity); right; reflexivity.
  - destruct v, m, (N.eqb s 0), (N.eqb c 0), (N.eqb t 0); reflexivity.
  - destruct v, m, (N.eqb s 0), (N.eqb c 0), (N.eqb t 0); reflexivity.
  - destruct v, m, (N.eqb s 0), (N.eqb c 0), (N.eqb t 0); reflexivity.
Qed.

(** C3: the [i]-th disk element of device kind disk has as target dev
    the letters sd followed by the drive name of [i] when [disks[i]]
    begins with a slash, [disks[i]] itself when it does not and is at most
    63 characters long, and sd followed by the drive name of [i]
    otherwise; its host element has the port [data_conns[i].nbd_remote_port]. *)
Theorem disk_rule cfg data_conns (i : nat) (d : string) (dc : data_conn) :
  nth_error (disks cfg) i = Some d ->
  nth_error data_conns i = Some dc ->
  let sd_name := ("sd" ++ guestfs_int_drive_name (Z.of_nat i))%string in
  let dev :=
    if String.prefix "/" d then sd_name
    else if (String.length d <=? 63)%nat then d
    else sd_name in
  nth_error
    (disk_elements "disk"
       (generate_physical_xml progname PACKAGE_VERSION_FULL host_cpu
          g_file_get_contents cfg data_conns)) i
  = Some (Element "disk" [("type", "network"); ("device", "disk")]
            [Element "driver" [("name", "qemu"); ("type", "raw")] [];
             Element "source" [("protocol", "nbd")]
               [Element "host"
                  [("name", "localhost");
                   ("port", format_d (nbd_remote_port dc))] []];
             Element "target" [("dev", dev)] []]).
Proof.
  intros Hd Hdc. cbv zeta.
  rewrite disk_elements_content, (disks_loop_nth data_conns _ 0 i d Hd).
  unfold disk_element, target_dev, data_conn_at, strlen.
  rewrite starts_with_slash, (nth_error_nth _ _ _ Hdc).
  reflexivity.
Qed.

(** C10: a disk entry that is the empty string is written like any other
    short name: it does not begin with a slash and its length 0 is within
    the 63 characters, so the disk element is produced and its target
    element has the empty string as dev. *)
Theorem empty_disk_name cfg data_conns (i : nat) :
  nth_error (disks cfg) i = Some EmptyString ->
  exists e,
    nth_error
      (disk_elements "disk"
         (generate_physical_xml progname PACKAGE_VERSION_FULL host_cpu
            g_file_get_contents cfg data_conns)) i = Some e
    /\ elements "target" (children e)
       = [Element "target" [("dev", EmptyString)] []].
Proof.
  intros Hd.
  rewrite disk_elements_content,
    (disks_loop_nth data_conns _ 0 i EmptyString Hd).
  eexists. split; reflexivity.
Qed.

(** C7: for the [i]-th interface the address file
    /sys/class/net/IFACE/address is read.  When reading fails the
    interface element is still written, without a mac element.  When it
    succeeds the element has one mac element whose address is the contents
    without their last character when that is a newline (one newline
    only: what comes before it is kept whole), and the contents unchanged
    otherwise. *)
Theorem mac_reader_rule cfg data_conns (ifs : list string) (i : nat)
    (iface : string) :
  interfaces cfg = Some ifs ->
  nth_error ifs i = Some iface ->
  exists e,
    nth_error
      (interface_elements
         (generate_physical_xml progname PACKAGE_VERSION_FULL host_cpu
            g_file_get_contents cfg data_conns)) i = Some e
    /\ has_name "interface" e = true
    /\ match
         g_file_get_contents ("/sys/class/net/" ++ iface ++ "/address")%string
       with
       | None => elements "mac" (children e) = []
       | Some contents =>
           exists mac,
             elements "mac" (children e)
             = [Element "mac" [("address", mac)] []]
             /\ (forall s, contents = (s ++ nl)%string -> mac = s)
             /\ ((forall s, contents <> (s ++ nl)%string) -> mac = contents)
       end.
Proof.
  intros Hifs Hnth.
  rewrite interface_elements_content, Hifs.
  rewrite (map_nth_error _ _ _ Hnth).
  eexists. split; [reflexivity|]. split; [reflexivity|].
  unfold interface_element, read_mac, start_element.
  cbn [children].
  change ("/sys/class/net/" ++ iface ++ "/address")%string
    with (mac_filename iface).
  destruct (g_file_get_contents (mac_filename iface)) as [contents|].
  - exists (strip_newline contents). split; [reflexivity|].
    apply strip_newline_spec.
  - reflexivity.
Qed.

End Properties.

(** The first comment of the document carries the program name and the
    package version (line 80): on the same configuration, connections,
    architecture and host files, two program names give two documents. *)
Lemma program_name_in_document :
  generate_physical_xml "virt-p2v" "1.42.0" "x86_64" (eth0_only "52:54:00:12:34:56")
    minimum_config [mk_data_conn 10000]
  <> generate_physical_xml "p2v" "1.42.0" "x86_64" (eth0_only "52:54:00:12:34:56")
       minimum_config [mk_data_conn 10000].
Proof. discriminate. Qed.

(** X15: of the host's files only the address files of the configured
    interfaces are read: two hosts that agree on
    /sys/class/net/IFACE/address for every configured interface (the same
    contents, or unreadable on both), and differ in any way elsewhere, give
    the same document. *)
Theorem host_files_beyond_mac_unused (progname version arch : string)
    (host1 host2 : string -> option string) (cfg : config)
    (data_conns : list data_conn) :
  (forall iface,
      In iface (interface_list cfg) ->
      host1 (mac_filename iface) = host2 (mac_filename iface)) ->
  generate_physical_xml progname version arch host1 cfg data_conns
  = generate_physical_xml progname version arch host2 cfg data_conns.
Proof.
  intros Hagree. unfold generate_physical_xml, devices_element.
  unfold interface_list in Hagree.
  destruct (interfaces cfg) as [ifs|]; [|reflexivity].
  assert (Hmap : map (interface_element host1 cfg) ifs
                 = map (interface_element host2 cfg) ifs).
  { apply map_ext_in. intros iface Hin.
    unfold interface_element, read_mac. now rewrite (Hagree iface Hin). }
  now rewrite Hmap.
Qed.

Lemma host_files_beyond_mac_unused_witness :
  let cfg := with_interfaces minimum_config ["eth0"] in
  let host1 := eth0_only "52:54:00:12:34:56" in
  let host2 := eth0_and_more "52:54:00:12:34:56" in
  (forall iface,
      In iface (interface_list cfg) ->
      host1 (mac_filename iface) = host2 (mac_filename iface))
  /\ generate_physical_xml "virt-p2v" "1.42.0" "x86_64" host1 cfg
       [mk_data_conn 10000]
     = generate_physical_xml "virt-p2v" "1.42.0" "x86_64" host2 cfg
         [mk_data_conn 10000].
Proof.
  cbv zeta.
  assert (Hagree : forall iface,
             In iface (interface_list (with_interfaces minimum_config ["eth0"])) ->
             eth0_only "52:54:00:12:34:56" (mac_filename iface)
             = eth0_and_more "52:54:00:12:34:56" (mac_filename iface)).
  { intros iface [<- | []]. reflexivity. }
  split; [exact Hagree | apply host_files_beyond_mac_unused; exact Hagree].
Defined.

Lemma disk_rule_witness :
  let cfg := with_disks minimum_config ["/x"; "vda"] in
  let data_conns := [mk_data_conn 5000; mk_data_conn 6000] in
  nth_error (disks cfg) 1 = Some "vda"
  /\ nth_error data_conns 1 = Some (mk_data_conn 6000)
  /\ nth_error
       (disk_elements "disk"
          (generate_physical_xml "virt-p2v" "1.42.0" "x86_64"
             (eth0_only "52:54:00:12:34:56") cfg data_conns)) 1
     = Some (Element "disk" [("type", "network"); ("device", "disk")]
               [Element "driver" [("name", "qemu"); ("type", "raw")] [];
                Element "source" [("protocol", "nbd")]
                  [Element "host"
                     [("name", "localhost"); ("port", "6000")] []];
                Element "target" [("dev", "vda")] []]).
Proof.
  cbv zeta. split; [reflexivity|]. split; [reflexivity|].
  exact (disk_rule "virt-p2v" "1.42.0" "x86_64" (eth0_only "52:54:00:12:34:56")
           (with_disks minimum_config ["/x"; "vda"])
           [mk_data_conn 5000; mk_data_conn 6000] 1 "vda" (mk_data_conn 6000)
           eq_refl eq_refl).
Defined.

Lemma empty_disk_name_witness :
  let cfg := with_disks minimum_config ["/x"; EmptyString] in
  let data_conns := [mk_data_conn 5000; mk_data_conn 6000] in
  nth_error (disks cfg) 1 = Some EmptyString
  /\ exists e,
      nth_error
        (disk_elements "disk"
           (generate_physical_xml "virt-p2v" "1.42.0" "x86_64"
              (eth0_only "52:54:00:12:34:56") cfg data_conns)) 1 = Some e
      /\ elements "target" (children e)
         = [Element "target" [("dev", EmptyString)] []].
Proof.
  cbv zeta. split; [reflexivity|].
  apply empty_disk_name. reflexivity.
Defined.

Lemma mac_reader_rule_witness :
  let cfg := with_interfaces minimum_config ["eth0"; "eth1"] in
  let host := eth0_only ("52:54:00:12:34:56" ++ nl ++ nl) in
  interfaces cfg = Some ["eth0"; "eth1"]
  /\ nth_error ["eth0"; "eth1"] 0 = Some "eth0"
  /\ exists e,
      nth_error
        (interface_elements
           (generate_physical_xml "virt-p2v" "1.42.0" "x86_64" host cfg
              [mk_data_conn 10000])) 0 = Some e
      /\ has_name "interface" e = true
      /\ exists mac,
          elements "mac" (children e) = [Element "mac" [("address", mac)] []]
          /\ mac = ("52:54:00:12:34:56" ++ nl)%string.
Proof.
  cbv zeta. split; [reflexivity|]. split; [reflexivity|].
  destruct (mac_reader_rule "virt-p2v" "1.42.0" "x86_64"
              (eth0_only ("52:54:00:12:34:56" ++ nl ++ nl))
              (with_interfaces minimum_config ["eth0"; "eth1"])
              [mk_data_conn 10000] ["eth0"; "eth1"] 0 "eth0" eq_refl eq_refl)
    as (e & Hnth & Hname & Hmac).
  exists e. split; [exact Hnth|]. split; [exact Hname|].
  change (eth0_only ("52:54:00:12:34:56" ++ nl ++ nl)
            ("/sys/class/net/" ++ "eth0" ++ "/address")%string)
    with (Some ("52:54:00:12:34:56" ++ nl ++ nl)%string) in Hmac.
  destruct Hmac as (mac & Hel & Hstrip & _).
  exists mac. split; [exact Hel|].
  apply Hstrip. reflexivity.
Defined.

(** * Further properties of the source *)

(** ** Network resolver, for every interface name *)

(** The two tests of the source on an entry amount to: the entry begins with
    the interface name followed by a colon. *)
Lemma prefix_test_is_prefix (iface : string) :
  forall e,
    STRPREFIX e iface && Ascii.eqb (char_at e (strlen iface)) ":"
    = String.prefix (iface ++ ":") e.
Proof.
  unfold STRPREFIX, char_at, strlen.
  induction iface as [|a i' IH]; intros [|c r]; try reflexivity.
  - cbn [String.prefix String.get String.length append andb].
    destruct (ascii_dec ":" c) as [<-|Hne].
    + now destruct r.
    + destruct r; apply Ascii.eqb_neq; congruence.
  - cbn [String.prefix String.get String.length append].
    destruct (ascii_dec a c) as [->|Hne]; [apply IH | reflexivity].
Qed.

Lemma strdrop_after_prefix (iface net : string) :
  strdrop (strlen iface + 1) (iface ++ ":" ++ net) = net.
Proof.
  unfold strlen. induction iface as [|a i' IH]; [reflexivity | exact IH].
Qed.

Lemma prefix_append (p s : string) : String.prefix p (p ++ s) = true.
Proof.
  induction p as [|a p IH]; simpl.
  - now destruct s.
  - destruct (ascii_dec a a); [exact IH | congruence].
Qed.

Lemma strchr_append_colon (iface net : string) :
  strchr (iface ++ ":" ++ net) ":" <> None.
Proof.
  induction iface as [|a i' IH]; simpl; [discriminate|].
  destruct (Ascii.eqb a ":"); [discriminate | exact IH].
Qed.

Lemma map_interface_loop_passed (pre rest : list string) (iface : string) :
  (forall p, In p pre -> passed_over iface p) ->
  map_interface_loop (pre ++ rest) iface = map_interface_loop rest iface.
Proof.
  induction pre as [|p pre IH]; intros Hpre; [reflexivity|].
  destruct (Hpre p (or_introl eq_refl)) as [Hcolon Hprefix].
  cbn [app map_interface_loop].
  destruct (strchr p ":"); [|congruence].
  rewrite prefix_test_is_prefix, Hprefix.
  apply IH. intros q Hq. apply Hpre. now right.
Qed.

(** X1: when every entry of the map has a colon and none begins with the
    interface name followed by a colon (in particular when the map is NULL
    or empty), the resolver returns the default network. *)
Theorem resolver_no_match_default (cfg : config) (iface : string) :
  (forall e, In e (network_map_entries cfg) -> passed_over iface e) ->
  map_interface_to_network cfg iface = "default".
Proof.
  unfold network_map_entries, map_interface_to_network.
  destruct (network_map cfg) as [entries|]; [|reflexivity].
  intros Hall.
  rewrite <- (app_nil_r entries).
  now rewrite map_interface_loop_passed.
Qed.

Lemma resolver_no_match_default_witness :
  let cfg := with_network_map minimum_config ["eth0:prod"; "eth1:backup"] in
  (forall e, In e (network_map_entries cfg) -> passed_over "eth2" e)
  /\ map_interface_to_network cfg "eth2" = "default".
Proof.
  cbv zeta.
  assert (Hall : forall e,
             In e (network_map_entries
                     (with_network_map minimum_config
                        ["eth0:prod"; "eth1:backup"])) ->
             passed_over "eth2" e).
  { intros e [<- | [<- | []]]; (split; [discriminate | reflexivity]). }
  split; [exact Hall | apply resolver_no_match_default; exact Hall].
Defined.

(** X2: the first entry that is not passed over decides, whatever follows
    it: a first such entry without a colon is returned whole, so a catch-all
    wins over a later entry for the interface; a first such entry that is
    the interface name, a colon and a network gives that network, for every
    interface name, with or without a colon in it. *)
Theorem resolver_first_match (cfg : config) (iface : string)
    (pre : list string) (e : string) (post : list string) :
  network_map cfg = Some (pre ++ e :: post) ->
  (forall p, In p pre -> passed_over iface p) ->
  (strchr e ":" = None -> map_interface_to_network cfg iface = e)
  /\ (forall net,
         e = (iface ++ ":" ++ net)%string ->
         map_interface_to_network cfg iface = net).
Proof.
  intros Hmap Hpre. unfold map_interface_to_network. rewrite Hmap.
  rewrite (map_interface_loop_passed pre (e :: post) iface Hpre).
  cbn [map_interface_loop]. split.
  - intros Hnone. now rewrite Hnone.
  - intros net ->.
    pose proof (strchr_append_colon iface net) as Hcolon.
    destruct (strchr (iface ++ ":" ++ net) ":"); [|congruence].
    rewrite prefix_test_is_prefix.
    replace (iface ++ ":" ++ net)%string with ((iface ++ ":") ++ net)%string
      by apply append_assoc.
    rewrite prefix_append.
    replace ((iface ++ ":") ++ net)%string with (iface ++ ":" ++ net)%string
      by (symmetry; apply append_assoc).
    apply strdrop_after_prefix.
Qed.

Lemma resolver_first_match_witness :
  let cfg :=
    with_network_map minimum_config ["eth0:prod"; "backup"; "eth1:other"] in
  network_map cfg = Some (["eth0:prod"] ++ "backup" :: ["eth1:other"])
  /\ (forall p, In p ["eth0:prod"] -> passed_over "eth1" p)
  /\ strchr "backup" ":" = None
  /\ map_interface_to_network cfg "eth1" = "backup".
Proof.
  cbv zeta.
  assert (Hpre : forall p, In p ["eth0:prod"] -> passed_over "eth1" p).
  { intros p [<- | []]. split; [discriminate | reflexivity]. }
  split; [reflexivity|]. split; [exact Hpre|]. split; [reflexivity|].
  exact (proj1 (resolver_first_match
                  (with_network_map minimum_config
                     ["eth0:prod"; "backup"; "eth1:other"])
                  "eth1" ["eth0:prod"] "backup" ["eth1:other"] eq_refl Hpre)
           eq_refl).
Defined.

(** X3: the returned network is the literal default or a tail of one of
    the entries of the map (the pointer the source returns points into the
    map): the resolver never makes up a name. *)
Theorem resolver_result_from_map (cfg : config) (iface : string) :
  map_interface_to_network cfg iface = "default"
  \/ exists e n,
      In e (network_map_entries cfg)
      /\ map_interface_to_network cfg iface = strdrop n e.
Proof.
  unfold map_interface_to_network, network_map_entries.
  destruct (network_map cfg) as [entries|]; [|now left].
  induction entries as [|e rest IH]; [now left|].
  cbn [map_interface_loop].
  destruct (strchr e ":").
  - destruct (STRPREFIX e iface && Ascii.eqb (char_at e (strlen iface)) ":").
    + right. exists e, (strlen iface + 1). split; [now left | reflexivity].
    + destruct IH as [IH | (e' & n & Hin & IH)]; [now left | right].
      exists e', n. split; [now right | exact IH].
  - right. exists e, 0. split; [now left | reflexivity].
Qed.

(** ** The target device of a disk *)

Lemma drive_name_length_bound (n : nat) :
  forall i, (i < 26 ^ Z.of_nat (S n))%Z ->
            String.length (guestfs_int_drive_name i) <= S n.
Proof.
  induction n as [|n IH]; intros i Hi.
  - destruct (Z_lt_dec i 0) as [Hneg|Hpos].
    + rewrite drive_name_negative by exact Hneg. simpl. lia.
    + rewrite drive_name_step, length_append by lia.
      change (26 ^ Z.of_nat 1)%Z with 26%Z in Hi.
      rewrite (Z.div_small i 26) by lia.
      rewrite drive_name_negative by lia. simpl. lia.
  - destruct (Z_lt_dec i 0) as [Hneg|Hpos].
    + rewrite drive_name_negative by exact Hneg. simpl. lia.
    + rewrite drive_name_step, length_append by lia.
      assert (Hq : (i / 26 < 26 ^ Z.of_nat (S n))%Z).
      { apply Z.div_lt_upper_bound; [lia|].
        replace (Z.of_nat (S (S n))) with (Z.succ (Z.of_nat (S n))) in Hi
          by lia.
        rewrite Z.pow_succ_r in Hi by lia. exact Hi. }
      specialize (IH (i / 26 - 1)%Z ltac:(lia)).
      simpl String.length. lia.
Qed.

Lemma size_limit_letters : (SIZE_LIMIT < 26 ^ Z.of_nat 14)%Z.
Proof. vm_compute. reflexivity. Qed.

(** X4: [target_dev] always fits its buffer of 64 bytes: for every disk
    index that a [size_t] can hold and every disk string, the computed
    target device is at most 63 characters long, so that [memcpy],
    [guestfs_int_drive_name] and [strcpy] stay inside [target_dev[64]]
    together with the terminating NUL. *)
Theorem target_dev_fits_buffer (i : nat) (disk : string) :
  (Z.of_nat i < SIZE_LIMIT)%Z ->
  strlen (target_dev i disk) <= 63.
Proof.
  intros Hi. unfold target_dev, strlen.
  assert (Hsd : String.length ("sd" ++ guestfs_int_drive_name (Z.of_nat i)) <= 63).
  { rewrite length_append.
    pose proof (drive_name_length_bound 13 (Z.of_nat i)) as Hlen.
    pose proof size_limit_letters as Hlim.
    specialize (Hlen ltac:(lia)). simpl String.length. lia. }
  destruct (Ascii.eqb (char_at disk 0) "/"); [exact Hsd|].
  destruct (String.length disk <=? 63)%nat eqn:Hshort; [|exact Hsd].
  now apply Nat.leb_le.
Qed.

Lemma target_dev_fits_buffer_witness :
  (Z.of_nat 702 < SIZE_LIMIT)%Z
  /\ strlen (target_dev 702 "/dev/disk/by-id/some-long-name") <= 63.
Proof.
  split; [reflexivity | apply target_dev_fits_buffer; reflexivity].
Defined.

Lemma drive_name_distinct (i j : Z) :
  (0 <= i)%Z -> (0 <= j)%Z -> i <> j ->
  guestfs_int_drive_name i <> guestfs_int_drive_name j.
Proof.
  intros Hi Hj Hne Heq.
  assert (H : shortlex_lt (guestfs_int_drive_name i) (guestfs_int_drive_name j)
              \/ shortlex_lt (guestfs_int_drive_name j) (guestfs_int_drive_name i)).
  { destruct (Z_lt_dec i j); [left | right]; apply drive_name_increasing; lia. }
  unfold shortlex_lt in H. rewrite Heq, shortlex_ltb_irrefl in H.
  destruct H; discriminate.
Qed.

(** X5: disks given by path never share a target device: for two different
    indices whose disk strings both begin with a slash, the computed target
    devices differ. *)
Theorem path_disks_distinct_targets (i j : nat) (d d' : string) :
  i <> j ->
  String.prefix "/" d = true ->
  String.prefix "/" d' = true ->
  target_dev i d <> target_dev j d'.
Proof.
  intros Hne Hd Hd'. unfold target_dev.
  rewrite !starts_with_slash, Hd, Hd'.
  intros Heq. injection Heq as Heq.
  apply (drive_name_distinct (Z.of_nat i) (Z.of_nat j)); [lia | lia | lia | exact Heq].
Qed.

Lemma path_disks_distinct_targets_witness :
  0 <> 26
  /\ String.prefix "/" "/dev/sda" = true
  /\ String.prefix "/" "/dev/sdb" = true
  /\ target_dev 0 "/dev/sda" <> target_dev 26 "/dev/sdb".
Proof.
  split; [discriminate|]. split; [reflexivity|]. split; [reflexivity|].
  apply path_disks_distinct_targets; [discriminate | reflexivity | reflexivity].
Defined.

(** ** The rest of the document *)

Lemma element_names_app (l1 l2 : list xml) :
  element_names (l1 ++ l2) = element_names l1 ++ element_names l2.
Proof.
  induction l1 as [|x l1 IH]; [reflexivity|].
  destruct x; cbn [app element_names]; now rewrite IH.
Qed.

Lemma disks_loop_length (data_conns : list data_conn) (ds : list string) :
  forall k, List.length (disks_loop data_conns k ds) = List.length ds.
Proof.
  induction ds as [|d ds IH]; intros k; simpl; [reflexivity | now rewrite IH].
Qed.

Lemma disks_loop_ext (dc1 dc2 : list data_conn) (ds : list string) :
  forall k,
    (forall i, k <= i < k + List.length ds ->
               data_conn_at dc1 i = data_conn_at dc2 i) ->
    disks_loop dc1 k ds = disks_loop dc2 k ds.
Proof.
  induction ds as [|d ds IH]; intros k Hsame; [reflexivity|].
  cbn [disks_loop]. f_equal.
  - unfold disk_element. rewrite (Hsame k); [reflexivity|]. simpl. lia.
  - apply IH. intros i Hi. apply Hsame. simpl. lia.
Qed.

Section Document.

Variable progname : string.
Variable PACKAGE_VERSION_FULL : string.
Variable host_cpu : string.
Variable g_file_get_contents : string -> option string.

Implicit Types (cfg : config) (data_conns : list data_conn).

Lemma cdrom_elements_content cfg data_conns :
  disk_elements "cdrom"
    (generate_physical_xml progname PACKAGE_VERSION_FULL host_cpu
       g_file_get_contents cfg data_conns)
  = map removable_element (removable_list cfg).
Proof.
  unfold disk_elements, removable_list.
  rewrite devices_content, !elements_app, !filter_app.
  unfold elements.
  assert (Hdisks : forall k,
             filter (has_attribute "device" "cdrom")
               (filter (has_name "disk") (disks_loop data_conns k (disks cfg)))
             = []).
  { induction (disks cfg) as [|d ds IH]; intros k; simpl;
      [reflexivity | apply IH]. }
  rewrite Hdisks.
  destruct (removable cfg) as [rs|], (interfaces cfg) as [ifs|];
    cbn [filter app];
    rewrite ?(filter_map_none (has_name "disk")
                (interface_element g_file_get_contents cfg)) by reflexivity;
    rewrite ?(filter_map_all (has_name "disk") removable_element)
      by reflexivity;
    rewrite ?(filter_map_all (has_attribute "device" "cdrom") removable_element)
      by reflexivity;
    cbn [filter map]; now rewrite ?app_nil_r.
Qed.

(** X6: the document has one features element; it holds, in this order,
    an empty acpi, apic and pae element for each of the three flags that is
    set, and nothing else. *)
Theorem features_subset cfg data_conns :
  elements "features"
    (inside ["domain"]
       (generate_physical_xml progname PACKAGE_VERSION_FULL host_cpu
          g_file_get_contents cfg data_conns))
  = [Element "features" []
       (map (fun flag => Element (fst flag) [] [])
          (filter snd
             [("acpi", acpi (cpu cfg)); ("apic", apic (cpu cfg));
              ("pae", pae (cpu cfg))]))].
Proof.
  rewrite domain_content, !elements_app.
  rewrite elements_cpu_other, elements_clock_other by reflexivity.
  unfold features_element.
  destruct (acpi (cpu cfg)), (apic (cpu cfg)), (pae (cpu cfg)); reflexivity.
Qed.

(** X7: the document has as many disk elements of device kind disk as
    [disks] has entries, as many of kind cdrom as [removable] has (none for
    a NULL list), and as many interface elements as [interfaces] has. *)
Theorem device_counts cfg data_conns :
  let doc :=
    generate_physical_xml progname PACKAGE_VERSION_FULL host_cpu
      g_file_get_contents cfg data_conns in
  List.length (disk_elements "disk" doc) = List.length (disks cfg)
  /\ List.length (disk_elements "cdrom" doc)
     = List.length (removable_list cfg)
  /\ List.length (interface_elements doc)
     = List.length (interface_list cfg).
Proof.
  cbv zeta.
  rewrite disk_elements_content, cdrom_elements_content,
    interface_elements_content, disks_loop_length, length_map.
  unfold interface_list.
  destruct (interfaces cfg); [now rewrite length_map | auto].
Qed.

(** X8: the [i]-th disk element of device kind cdrom is written for
    [removable[i]]: type network, a qemu raw driver and a target whose dev
    is that entry; it has no source element, and no port is looked up. *)
Theorem removable_rule cfg data_conns (rs : list string) (i : nat)
    (r : string) :
  removable cfg = Some rs ->
  nth_error rs i = Some r ->
  nth_error
    (disk_elements "cdrom"
       (generate_physical_xml progname PACKAGE_VERSION_FULL host_cpu
          g_file_get_contents cfg data_conns)) i
  = Some (Element "disk" [("type", "network"); ("device", "cdrom")]
            [Element "driver" [("name", "qemu"); ("type", "raw")] [];
             Element "target" [("dev", r)] []]).
Proof.
  intros Hrs Hnth.
  rewrite cdrom_elements_content. unfold removable_list. rewrite Hrs.
  now rewrite (map_nth_error _ _ _ Hnth).
Qed.

(** X9: the [i]-th interface element is written for [interfaces[i]]: its
    type is network, its first child is a source whose network is what the
    resolver returns for that interface, its second a target whose dev is
    the interface name; a mac element, if any, is all that follows. *)
Theorem interface_rule cfg data_conns (ifs : list string) (i : nat)
    (iface : string) :
  interfaces cfg = Some ifs ->
  nth_error ifs i = Some iface ->
  exists rest,
    nth_error
      (interface_elements
         (generate_physical_xml progname PACKAGE_VERSION_FULL host_cpu
            g_file_get_contents cfg data_conns)) i
    = Some (Element "interface" [("type", "network")]
              (Element "source"
                 [("network", map_interface_to_network cfg iface)] []
               :: Element "target" [("dev", iface)] []
               :: rest))
    /\ elements "mac" rest = rest
    /\ List.length rest <= 1.
Proof.
  intros Hifs Hnth.
  rewrite interface_elements_content, Hifs, (map_nth_error _ _ _ Hnth).
  unfold interface_element.
  destruct (read_mac g_file_get_contents iface) as [mac|].
  - eexists. split; [reflexivity|]. split; [reflexivity | simpl; lia].
  - exists []. split; [reflexivity|]. split; [reflexivity | simpl; lia].
Qed.

(** X10: the document is two comments, the first made of the program name
    and the package version, followed by a single root element domain of
    type physical; the root has one name element with the guest name, one
    vcpu element with the decimal number of virtual CPUs, and one os element
    whose type is hvm for the host architecture. *)
Theorem document_skeleton cfg data_conns :
  exists note body,
    generate_physical_xml progname PACKAGE_VERSION_FULL host_cpu
      g_file_get_contents cfg data_conns
    = [Comment (" " ++ progname ++ " " ++ PACKAGE_VERSION_FULL ++ " ")%string;
       Comment note;
       Element "domain" [("type", "physical")] body]
    /\ elements "name" body = [Element "name" [] [Text (guestname cfg)]]
    /\ elements "vcpu" body = [Element "vcpu" [] [Text (format_d (vcpus cfg))]]
    /\ elements "os" body
       = [Element "os" []
            [Element "type" [("arch", host_cpu)] [Text "hvm"]]].
Proof.
  eexists. eexists. split; [reflexivity|].
  rewrite !elements_app.
  rewrite !elements_cpu_other, !elements_clock_other by reflexivity.
  repeat split.
Qed.

(** X11: the children of the root come in a fixed order: name, memory,
    currentMemory, vcpu, then cpu when a CPU field is set, then clock when
    the clock basis is known, then os, features and devices. *)
Theorem domain_children_order cfg data_conns :
  element_names
    (inside ["domain"]
       (generate_physical_xml progname PACKAGE_VERSION_FULL host_cpu
          g_file_get_contents cfg data_conns))
  = ["name"; "memory"; "currentMemory"; "vcpu"]
    ++ (if is_set (vendor (cpu cfg)) || is_set (model (cpu cfg))
           || nonzero (sockets (cpu cfg)) || nonzero (cores (cpu cfg))
           || nonzero (threads (cpu cfg))
        then ["cpu"] else [])
    ++ (match basis (rtc cfg) with
        | BASIS_UNKNOWN => []
        | _ => ["clock"]
        end)
    ++ ["os"; "features"; "devices"].
Proof.
  rewrite domain_content, !element_names_app.
  unfold cpu_elements, clock_elements.
  destruct (is_set (vendor (cpu cfg)) || is_set (model (cpu cfg))
            || nonzero (sockets (cpu cfg)) || nonzero (cores (cpu cfg))
            || nonzero (threads (cpu cfg)));
    destruct (basis (rtc cfg)); reflexivity.
Qed.

(** X12: inside devices, all disks come first, in the order of [disks],
    then all removable media, then all interfaces: the content of devices is
    these three groups one after the other and nothing else. *)
Theorem devices_order cfg data_conns :
  let doc :=
    generate_physical_xml progname PACKAGE_VERSION_FULL host_cpu
      g_file_get_contents cfg data_conns in
  inside ["domain"; "devices"] doc
  = disk_elements "disk" doc ++ disk_elements "cdrom" doc
    ++ interface_elements doc.
Proof.
  cbv zeta.
  rewrite disk_elements_content, cdrom_elements_content,
    interface_elements_content, devices_content.
  unfold removable_list. now destruct (removable cfg).
Qed.

(** X13: only the connections of the disks are read: two arrays of data
    connections that agree on their first [|disks|] entries give the same
    document. *)
Theorem data_conns_beyond_disks_unused cfg (dc1 dc2 : list data_conn) :
  firstn (List.length (disks cfg)) dc1 = firstn (List.length (disks cfg)) dc2 ->
  generate_physical_xml progname PACKAGE_VERSION_FULL host_cpu
    g_file_get_contents cfg dc1
  = generate_physical_xml progname PACKAGE_VERSION_FULL host_cpu
      g_file_get_contents cfg dc2.
Proof.
  intros Hsame. unfold generate_physical_xml, devices_element.
  rewrite (disks_loop_ext dc1 dc2 (disks cfg) 0); [reflexivity|].
  intros i Hi. unfold data_conn_at.
  pose proof (nth_firstn (List.length (disks cfg)) dc1 i (mk_data_conn 0)) as H1.
  pose proof (nth_firstn (List.length (disks cfg)) dc2 i (mk_data_conn 0)) as H2.
  replace (i <? List.length (disks cfg))%nat with true in H1, H2
    by (symmetry; apply Nat.ltb_lt; lia).
  rewrite <- H1, <- H2. now rewrite Hsame.
Qed.

End Document.

(** ** The shape of a generated target device *)

Lemma all_lower_append (s t : string) :
  all_lower (s ++ t) = all_lower s && all_lower t.
Proof.
  induction s as [|c s IH]; simpl; [reflexivity|].
  now rewrite IH, andb_assoc.
Qed.

Lemma letter_is_lower (d : Z) : (0 <= d < 26)%Z -> is_lower (letter d) = true.
Proof.
  intros Hd. unfold is_lower. rewrite letter_code by exact Hd.
  apply andb_true_iff. split; apply Nat.leb_le; lia.
Qed.

Lemma drive_name_lower (n : nat) :
  forall i, (i < Z.of_nat n)%Z -> all_lower (guestfs_int_drive_name i) = true.
Proof.
  induction n as [|n IH]; intros i Hi.
  - now rewrite drive_name_negative by lia.
  - destruct (Z_lt_dec i 0) as [Hneg|Hpos].
    + now rewrite drive_name_negative by exact Hneg.
    + rewrite drive_name_step, all_lower_append by lia.
      assert (Hq : (i / 26 <= i)%Z) by (apply Z.div_le_upper_bound; lia).
      rewrite IH by lia.
      cbn [all_lower andb]. rewrite letter_is_lower; [reflexivity|].
      apply Z.mod_pos_bound. lia.
Qed.

(** X14: for a disk given by path, at an index that a [size_t] can hold,
    the target device is the letters sd followed by between 1 and 14
    letters from a to z. *)
Theorem path_disk_target_shape (i : nat) (d : string) :
  String.prefix "/" d = true ->
  (Z.of_nat i < SIZE_LIMIT)%Z ->
  exists letters,
    target_dev i d = ("sd" ++ letters)%string
    /\ all_lower letters = true
    /\ 1 <= String.length letters <= 14.
Proof.
  intros Hd Hi. unfold target_dev. rewrite starts_with_slash, Hd.
  exists (guestfs_int_drive_name (Z.of_nat i)).
  split; [reflexivity|]. split.
  - apply (drive_name_lower (S i)). lia.
  - pose proof (drive_name_length_pos (Z.of_nat i) ltac:(lia)) as Hpos.
    pose proof (drive_name_length_bound 13 (Z.of_nat i)) as Hlen.
    pose proof size_limit_letters as Hlim.
    specialize (Hlen ltac:(lia)). lia.
Qed.

Lemma path_disk_target_shape_witness :
  String.prefix "/" "/dev/sda" = true
  /\ (Z.of_nat 27 < SIZE_LIMIT)%Z
  /\ exists letters,
      target_dev 27 "/dev/sda" = ("sd" ++ letters)%string
      /\ all_lower letters = true
      /\ 1 <= String.length letters <= 14.
Proof.
  split; [reflexivity|]. split; [reflexivity|].
  apply path_disk_target_shape; reflexivity.
Defined.

Lemma removable_rule_witness :
  let cfg := with_removable minimum_config ["sr0"; "sr1"] in
  removable cfg = Some ["sr0"; "sr1"]
  /\ nth_error ["sr0"; "sr1"] 1 = Some "sr1"
  /\ nth_error
       (disk_elements "cdrom"
          (generate_physical_xml "virt-p2v" "1.42.0" "x86_64"
             (eth0_only "52:54:00:12:34:56") cfg [mk_data_conn 10000])) 1
     = Some (Element "disk" [("type", "network"); ("device", "cdrom")]
               [Element "driver" [("name", "qemu"); ("type", "raw")] [];
                Element "target" [("dev", "sr1")] []]).
Proof.
  cbv zeta. split; [reflexivity|]. split; [reflexivity|].
  exact (removable_rule "virt-p2v" "1.42.0" "x86_64"
           (eth0_only "52:54:00:12:34:56")
           (with_removable minimum_config ["sr0"; "sr1"])
           [mk_data_conn 10000] ["sr0"; "sr1"] 1 "sr1" eq_refl eq_refl).
Defined.

Lemma interface_rule_witness :
  let cfg :=
    with_network_map (with_interfaces minimum_config ["eth0"; "eth1"])
      ["eth0:prod"; "backup"] in
  interfaces cfg = Some ["eth0"; "eth1"]
  /\ nth_error ["eth0"; "eth1"] 1 = Some "eth1"
  /\ exists rest,
      nth_error
        (interface_elements
           (generate_physical_xml "virt-p2v" "1.42.0" "x86_64"
              (eth0_only "52:54:00:12:34:56") cfg [mk_data_conn 10000])) 1
      = Some (Element "interface" [("type", "network")]
                (Element "source" [("network", "backup")] []
                 :: Element "target" [("dev", "eth1")] []
                 :: rest))
      /\ elements "mac" rest = rest
      /\ List.length rest <= 1.
Proof.
  cbv zeta. split; [reflexivity|]. split; [reflexivity|].
  exact (interface_rule "virt-p2v" "1.42.0" "x86_64"
           (eth0_only "52:54:00:12:34:56")
           (with_network_map (with_interfaces minimum_config ["eth0"; "eth1"])
              ["eth0:prod"; "backup"])
           [mk_data_conn 10000] ["eth0"; "eth1"] 1 "eth1" eq_refl eq_refl).
Defined.

Lemma data_conns_beyond_disks_unused_witness :
  let dc1 := [mk_data_conn 10000; mk_data_conn 10001] in
  let dc2 := [mk_data_conn 10000; mk_data_conn 22] in
  firstn (List.length (disks minimum_config)) dc1
  = firstn (List.length (disks minimum_config)) dc2
  /\ generate_physical_xml "virt-p2v" "1.42.0" "x86_64"
       (eth0_only "52:54:00:12:34:56") minimum_config dc1
     = generate_physical_xml "virt-p2v" "1.42.0" "x86_64"
         (eth0_only "52:54:00:12:34:56") minimum_config dc2.
Proof.
  cbv zeta. split; [reflexivity|].
  apply data_conns_beyond_disks_unused. reflexivity.
Defined.
